(** * A shallow embedding of [codex_server.py]

    The server wraps the [codex] command line tool: [codex_agent] validates
    the prompt, prefixes it according to the task type and hands it to
    [run_codex], which builds the argument vector (writing data-URI images
    to temporary files on the way), runs the tool once and packs what came
    back into a dictionary.  [codex_interactive] only reports the command
    line of an interactive session.

    Python values are modelled as follows.
    - A [str] is the list of its code points ([N]); string literals of the
      source, all ASCII, are injected with [lit] (a coercion).
    - [bytes] are lists of [Byte.byte].
    - The dictionaries the tools return are [gmap string value].
    - The outside world (files of the temporary directory, the names the
      [tempfile] module will propose, the calls made to [subprocess.run],
      what was printed on [sys.stderr]) is an explicit [world], threaded
      through a state-and-exception monad [M]. *)

From stdpp Require Import gmap strings list fin_maps pretty.
From Stdlib Require Import ZArith NArith Ascii.
From Stdlib.Strings Require Import Byte.

Local Open Scope N_scope.

(** ** Text and bytes *)

Definition str := list N.
Abbreviation bytes := (list byte).

#[global] Instance str_eq_dec : EqDecision str := @list_eq_dec N _.
#[global] Instance str_countable : Countable str := @list_countable N _ _.
#[global] Instance str_inhabited : Inhabited str := populate [].

(** A literal of the source as a [str]: one code point per character. *)
Definition lit (s : string) : str :=
  (fun a => N_of_ascii a) <$> String.list_ascii_of_string s.
Coercion lit : string >-> str.
Arguments lit : simpl never.

(** [bool(s)] for a string, [bool(l)] for a list: empty is false. *)
Definition truthy {A} (l : list A) : bool :=
  match l with [] => false | _ :: _ => true end.

(** [s.startswith(p)] *)
Fixpoint startswith (s p : str) {struct p} : bool :=
  match p, s with
  | [], _ => true
  | _ :: _, [] => false
  | c :: p', d :: s' => if decide (c = d) then startswith s' p' else false
  end.

(** [needle in s] *)
Fixpoint contains (needle s : str) : bool :=
  startswith s needle ||
  match s with
  | [] => false
  | _ :: s' => contains needle s'
  end.

(** The text before and after the first occurrence of [sep] in [s]. *)
Fixpoint partition_at (sep s : str) : option (str * str) :=
  if startswith s sep then Some ([], drop (length sep) s)
  else match s with
       | [] => None
       | c :: s' => (fun '(h, t) => (c :: h, t)) <$> partition_at sep s'
       end.

(** [s.split(sep, 1)] for a non-empty separator. *)
Definition split_1 (sep s : str) : list str :=
  match partition_at sep s with
  | Some (h, t) => [h; t]
  | None => [s]
  end.

(** [sep.join(l)] *)
Fixpoint join (sep : str) (l : list str) : str :=
  match l with
  | [] => []
  | [x] => x
  | x :: rest => x ++ sep ++ join sep rest
  end.

(** [c.isspace()]: the code points Python treats as whitespace. *)
Definition isspace (c : N) : bool :=
  (9 <=? c) && (c <=? 13) || (28 <=? c) && (c <=? 32)
  || (c =? 133) || (c =? 160) || (c =? 5760)
  || (8192 <=? c) && (c <=? 8202)
  || (c =? 8232) || (c =? 8233) || (c =? 8239) || (c =? 8287) || (c =? 12288).

Fixpoint lstrip (s : str) : str :=
  match s with
  | [] => []
  | c :: s' => if isspace c then lstrip s' else s
  end.

Definition rstrip (s : str) : str := reverse (lstrip (reverse s)).

(** [s.strip()] *)
Definition strip (s : str) : str := rstrip (lstrip s).

(** The byte with value [n mod 256]. *)
Definition byte_of_N (n : N) : byte :=
  default x00 (Byte.of_N (n mod 256)).

(** UTF-8 encoding of one code point; surrogates (and numbers that are no
    code point) cannot be encoded. *)
Definition utf8_char (c : N) : option bytes :=
  if c <? 128 then Some [byte_of_N c]
  else if c <? 2048 then
    Some [byte_of_N (192 + N.shiftr c 6); byte_of_N (128 + N.land c 63)]
  else if c <? 65536 then
    if (55296 <=? c) && (c <=? 57343) then None
    else Some [byte_of_N (224 + N.shiftr c 12);
               byte_of_N (128 + N.land (N.shiftr c 6) 63);
               byte_of_N (128 + N.land c 63)]
  else if c <? 1114112 then
    Some [byte_of_N (240 + N.shiftr c 18);
          byte_of_N (128 + N.land (N.shiftr c 12) 63);
          byte_of_N (128 + N.land (N.shiftr c 6) 63);
          byte_of_N (128 + N.land c 63)]
  else None.

(** [s.encode()]: UTF-8, [None] for [UnicodeEncodeError]. *)
Fixpoint encode (s : str) : option bytes :=
  match s with
  | [] => Some []
  | c :: s' =>
      match utf8_char c, encode s' with
      | Some b, Some bs => Some (b ++ bs)
      | _, _ => None
      end
  end.

(** ** Exceptions *)

Inductive exn :=
| ValueError          (* non-ASCII text given to [b64decode]; failed unpacking *)
| BinasciiError       (* [binascii.Error]: malformed base64 *)
| UnicodeEncodeError  (* [str.encode] on text that has no UTF-8 form *)
| FileExistsError.    (* [tempfile]: no usable temporary file name found *)

(** ** [base64.b64decode]

    The standard library's lenient decoder ([validate=False]): characters
    outside the alphabet are skipped, a pad that completes a quad ends the
    input, and data that stops inside a quad is an error. *)

(** [table_a2b_base64]: the value of an alphabet character. *)
Definition b64_value (c : N) : option N :=
  if (65 <=? c) && (c <=? 90) then Some (c - 65)
  else if (97 <=? c) && (c <=? 122) then Some (c - 71)
  else if (48 <=? c) && (c <=? 57) then Some (c + 4)
  else if c =? 43 then Some 62
  else if c =? 47 then Some 63
  else None.

(** The decoder's loop over the remaining input, with its state: position
    in the quad, bits left over from the previous character, pads seen
    since the last data character, and the output so far. *)
Fixpoint a2b_base64 (input : str) (quad_pos : nat) (leftchar : N)
    (pads : nat) (out : bytes) : exn + bytes :=
  match input with
  | [] => match quad_pos with O => inr out | _ => inl BinasciiError end
  | this_ch :: rest =>
      if this_ch =? 61 then
        if bool_decide (2 ≤ quad_pos)%nat then
          if bool_decide (4 ≤ quad_pos + S pads)%nat then inr out
          else a2b_base64 rest quad_pos leftchar (S pads) out
        else a2b_base64 rest quad_pos leftchar pads out
      else
        match b64_value this_ch with
        | None => a2b_base64 rest quad_pos leftchar pads out
        | Some v =>
            match quad_pos with
            | 0%nat => a2b_base64 rest 1 v 0 out
            | 1%nat =>
                a2b_base64 rest 2 (N.land v 15) 0
                  (out ++ [byte_of_N (N.lor (N.shiftl leftchar 2) (N.shiftr v 4))])
            | 2%nat =>
                a2b_base64 rest 3 (N.land v 3) 0
                  (out ++ [byte_of_N (N.lor (N.shiftl leftchar 4) (N.shiftr v 2))])
            | _ =>
                a2b_base64 rest 0 0 0
                  (out ++ [byte_of_N (N.lor (N.shiftl leftchar 6) v)])
            end
        end
  end.

(** [base64.b64decode(s)] for a [str] argument. *)
Definition b64decode (s : str) : exn + bytes :=
  if forallb (fun c => c <? 128) s then a2b_base64 s 0 0 0 []
  else inl ValueError.



(** ** The outside world *)

Record world := World {
  (** contents of the files of the temporary directory, by path *)
  files : gmap str bytes;
  (** the paths [tempfile] will propose for new files, in order *)
  tmp_names : list str;
  (** the argument vectors given to [subprocess.run], oldest first *)
  run_calls : list (list str);
  (** what was printed on [sys.stderr], oldest first *)
  stderr_lines : list str;
}.

(** What one call of [subprocess.run(cmd, text=True, capture_output=True)]
    comes to: the child ran and exited, or the call raised something else
    than [CalledProcessError] (the executable is missing, permission is
    denied, ...), carrying the exception's [str]. *)
Inductive run_outcome :=
| Exited (returncode : Z) (stdout stderr : str)
| RunError (message : str).

(** The values stored in the dictionaries the tools return. *)
Inductive value :=
| VStr (s : str)
| VInt (n : Z)
| VList (l : list str).

Abbreviation dict := (gmap string value).

(** ** Computations: state of the world, and exceptions *)

Definition M (A : Type) : Type := world → (exn + A) * world.

Definition ret {A} (a : A) : M A := fun w => (inr a, w).

Definition raise {A} (e : exn) : M A := fun w => (inl e, w).

Definition bind {A B} (m : M A) (k : A → M B) : M B := fun w =>
  match m w with
  | (inl e, w') => (inl e, w')
  | (inr a, w') => k a w'
  end.

#[global] Instance M_ret : MRet M := @ret.
#[global] Instance M_bind : MBind M := fun A B k m => bind m k.

(** A library call that returns or raises without touching the world. *)
Definition lift {A} (r : exn + A) : M A := fun w => (r, w).

(** [print(line, file=sys.stderr)] *)
Definition print_stderr (line : str) : M unit := fun w =>
  (inr (), {| files := files w; tmp_names := tmp_names w;
              run_calls := run_calls w;
              stderr_lines := stderr_lines w ++ [line] |}).

(** The first proposed path that names no existing file, and the
    proposals left after it. *)
Fixpoint first_unused (fs : gmap str bytes) (names : list str)
    : option (str * list str) :=
  match names with
  | [] => None
  | name :: rest =>
      match fs !! name with
      | None => Some (name, rest)
      | Some _ => first_unused fs rest
      end
  end.

(** [tempfile.NamedTemporaryFile(delete=False, suffix=".png")]: creates an
    empty file under the first proposed path that is free and returns that
    path ([temp.name]); raises when every proposal is taken. *)
Definition NamedTemporaryFile : M str := fun w =>
  match first_unused (files w) (tmp_names w) with
  | Some (name, rest) =>
      (inr name, {| files := <[name := []]> (files w); tmp_names := rest;
                    run_calls := run_calls w;
                    stderr_lines := stderr_lines w |})
  | None =>
      (inl FileExistsError, {| files := files w; tmp_names := [];
                               run_calls := run_calls w;
                               stderr_lines := stderr_lines w |})
  end.

(** [temp.write(data)] on the open file at path [name]. *)
Definition write (name : str) (data : bytes) : M unit := fun w =>
  (inr (), {| files := alter (fun old => old ++ data) name (files w);
              tmp_names := tmp_names w; run_calls := run_calls w;
              stderr_lines := stderr_lines w |}).

(** The world after a temporary file was created at [name] with [data]. *)
Definition with_file (name : str) (data : bytes) (rest : list str)
    (w : world) : world :=
  {| files := <[name := data]> (files w); tmp_names := rest;
     run_calls := run_calls w; stderr_lines := stderr_lines w |}.

(** ** [_optimize_prompt_for_task] *)

Definition task_prefixes : gmap str str :=
  list_to_map
    [ (lit "code-generation",
       lit "Generate clean, well-documented code for the following task:" ++ [10; 10]);
      (lit "code-explanation",
       lit "Provide a detailed explanation of the following code, including what it does, how it works, and any notable patterns:" ++ [10; 10]);
      (lit "debugging",
       lit "Analyze the following code/issue for bugs, explain the problems found, and provide fixes:" ++ [10; 10]);
      (lit "refactoring",
       lit "Refactor the following code to improve readability, performance, and maintainability:" ++ [10; 10]);
      (lit "testing",
       lit "Write comprehensive tests for the following code or fix existing test issues:" ++ [10; 10]);
      (lit "security",
       lit "Perform a security analysis of the following code, identify vulnerabilities, and suggest fixes:" ++ [10; 10]);
      (lit "documentation",
       lit "Generate or improve documentation for the following code:" ++ [10; 10]);
      (lit "general", lit "") ].

Definition _optimize_prompt_for_task (prompt task_type : str) : str :=
  let prefix := default (lit "") (task_prefixes !! task_type) in
  prefix ++ prompt.

(** The task types the tool documents. *)
Definition task_types : list str :=
  [ lit "general"; lit "code-generation"; lit "code-explanation";
    lit "debugging"; lit "refactoring"; lit "testing"; lit "security";
    lit "documentation" ].

(** ** [run_codex]: building the command *)

(** The body of the image loop before [cmd.extend]: a data URI is written
    to a fresh temporary file whose path replaces it, anything else is
    taken as a path and left alone. *)
Definition resolve_image (image_path : str) : M str :=
  if startswith image_path (lit "data:") then
    temp ← NamedTemporaryFile;
    if contains (lit "base64,") image_path then
      match split_1 (lit ",") image_path with
      | [header; encoded] =>
          image_data ← lift (b64decode encoded);
          write temp image_data;;
          ret temp
      | _ => raise ValueError
      end
    else
      match encode image_path with
      | Some data => write temp data;; ret temp
      | None => raise UnicodeEncodeError
      end
  else ret image_path.

(** [for image_path in images: ...; cmd.extend(["--image", image_path])] *)
Fixpoint images_loop (images : list str) (cmd : list str) : M (list str) :=
  match images with
  | [] => ret cmd
  | image_path :: rest =>
      image_path ← resolve_image image_path;
      images_loop rest (cmd ++ [lit "--image"; image_path])
  end.

(** [if c: cmd.extend(args)] *)
Definition extend_if (c : bool) (cmd args : list str) : list str :=
  if c then cmd ++ args else cmd.

(** The first part of [run_codex], up to [cmd.append(prompt)]: the
    argument vector, built option by option. *)
Definition build_cmd (prompt : str) (model : option str)
    (images : option (list str)) (approval_mode : str)
    (quiet json_output : bool) (provider : option str)
    (additional_args : option (list str)) : M (list str) :=
  let cmd := [lit "codex"] in
  let cmd := extend_if quiet cmd [lit "--quiet"] in
  let cmd := extend_if json_output cmd [lit "--json"] in
  let cmd := match model with
             | Some model => extend_if (truthy model) cmd [lit "--model"; model]
             | None => cmd
             end in
  let cmd := match provider with
             | Some provider =>
                 extend_if (truthy provider) cmd [lit "--provider"; provider]
             | None => cmd
             end in
  let cmd := extend_if
               (truthy approval_mode
                && negb (bool_decide (approval_mode = lit "suggest")))
               cmd [lit "--approval-mode"; approval_mode] in
  cmd ← match images with
        | Some images =>
            if truthy images then images_loop images cmd else ret cmd
        | None => ret cmd
        end;
  let cmd := match additional_args with
             | Some additional_args =>
                 extend_if (truthy additional_args) cmd additional_args
             | None => cmd
             end in
  ret (cmd ++ [prompt]).

(** ** [codex_interactive] *)

Definition codex_interactive (initial_prompt : option str) (model : str)
    (approval_mode : str) (provider : option str) : M dict :=
  let cmd := [lit "codex"] in
  let cmd := extend_if (truthy model) cmd [lit "--model"; model] in
  let cmd := match provider with
             | Some provider =>
                 extend_if (truthy provider) cmd [lit "--provider"; provider]
             | None => cmd
             end in
  let cmd := extend_if
               (truthy approval_mode
                && negb (bool_decide (approval_mode = lit "suggest")))
               cmd [lit "--approval-mode"; approval_mode] in
  let cmd := match initial_prompt with
             | Some initial_prompt =>
                 extend_if (truthy initial_prompt) cmd [initial_prompt]
             | None => cmd
             end in
  ret ({[ "status" := VStr (lit "info");
          "message" := VStr (lit "Interactive Codex session would be started with the following command:");
          "command" := VStr (join (lit " ") cmd);
          "note" := VStr (lit "This requires terminal access. For automated tasks, use codex_agent instead.");
          "instructions" := VList
            [ lit "Run this command in your terminal to start the interactive session";
              lit "Type 'exit' or press Ctrl+C to end the session";
              lit "Use different approval modes for varying levels of autonomy" ]
       ]} : dict).

Section Server.

(** What launching an argument vector comes to, in a given world. *)
Variable subprocess_run : list str → world → run_outcome.

(** [str(e)] of the [CalledProcessError] raised for a command and its
    non-zero return code. *)
Variable CalledProcessError_str : list str → Z → str.

(** ** [run_codex]: running the command *)

(** The call of [subprocess.run] itself. *)
Definition run (cmd : list str) : M run_outcome := fun w =>
  (inr (subprocess_run cmd w),
   {| files := files w; tmp_names := tmp_names w;
      run_calls := run_calls w ++ [cmd];
      stderr_lines := stderr_lines w |}).

(** The second part of [run_codex], from the [print] on: one run of the
    command, and the dictionary for each of the three ways it can end
    ([check=True] turns a non-zero return code into
    [CalledProcessError]). *)
Definition execute (cmd : list str) : M dict :=
  print_stderr (lit "Executing command: " ++ join (lit " ") cmd);;
  result ← run cmd;
  match result with
  | Exited Z0 stdout stderr =>
      let output := strip stdout in
      ret ({[ "status" := VStr (lit "success");
              "output" := VStr output;
              "stderr" := VStr stderr;
              "command" := VStr (join (lit " ") cmd) ]} : dict)
  | Exited returncode stdout stderr =>
      let e := CalledProcessError_str cmd returncode in
      print_stderr (lit "Error running codex: " ++ e);;
      ret ({[ "status" := VStr (lit "error");
              "error" := VStr e;
              "output" := VStr stdout;
              "stderr" := VStr stderr;
              "exit_code" := VInt returncode;
              "command" := VStr (join (lit " ") cmd) ]} : dict)
  | RunError e =>
      print_stderr (lit "Unexpected error: " ++ e);;
      ret ({[ "status" := VStr (lit "error");
              "error" := VStr e;
              "command" := VStr (join (lit " ") cmd) ]} : dict)
  end.

Definition run_codex (prompt : str) (model : option str)
    (images : option (list str)) (approval_mode : str)
    (quiet json_output : bool) (provider : option str)
    (additional_args : option (list str)) : M dict :=
  cmd ← build_cmd prompt model images approval_mode quiet json_output
          provider additional_args;
  execute cmd.

(** ** [codex_agent] *)

Definition codex_agent (prompt : str) (model : str) (approval_mode : str)
    (images : option (list str)) (provider : option str)
    (json_output : bool) (task_type : str)
    (additional_args : option (list str)) : M dict :=
  if negb (truthy prompt) then
    ret ({[ "status" := VStr (lit "error");
            "error" := VStr (lit "Missing required parameter: prompt") ]} : dict)
  else
    let optimized_prompt := _optimize_prompt_for_task prompt task_type in
    run_codex optimized_prompt (Some model) (Some (default [] images))
      approval_mode true json_output provider
      (Some (default [] additional_args)).

End Server.

(** ** The command line, as the interface describes it *)

(** Resolving every image in order, left to right. *)
Fixpoint resolve_all (images : list str) : M (list str) :=
  match images with
  | [] => ret []
  | image_path :: rest =>
      path ← resolve_image image_path;
      paths ← resolve_all rest;
      ret (path :: paths)
  end.

(** [flag] when the switch is on. *)
Definition switch_args (on : bool) (flag : str) : list str :=
  if on then [flag] else [].

(** [flag value] when a non-empty value was given. *)
Definition option_args (flag : str) (v : option str) : list str :=
  match v with
  | Some v => if truthy v then [flag; v] else []
  | None => []
  end.

(** [--approval-mode mode] when the mode is neither empty nor "suggest". *)
Definition approval_args (approval_mode : str) : list str :=
  if truthy approval_mode && negb (bool_decide (approval_mode = lit "suggest"))
  then [lit "--approval-mode"; approval_mode] else [].

Definition image_args (path : str) : list str := [lit "--image"; path].

(** The argument vector in its fixed order, given the resolved image paths. *)
Definition command_layout (prompt : str) (model : option str)
    (paths : list str) (approval_mode : str) (quiet json_output : bool)
    (provider : option str) (additional_args : list str) : list str :=
  [lit "codex"]
  ++ switch_args quiet (lit "--quiet")
  ++ switch_args json_output (lit "--json")
  ++ option_args (lit "--model") model
  ++ option_args (lit "--provider") provider
  ++ approval_args approval_mode
  ++ flat_map image_args paths
  ++ additional_args
  ++ [prompt].

(** The command line [codex_interactive] reports. *)
Definition interactive_layout (initial_prompt : option str) (model : str)
    (approval_mode : str) (provider : option str) : list str :=
  [lit "codex"]
  ++ option_args (lit "--model") (Some model)
  ++ option_args (lit "--provider") provider
  ++ approval_args approval_mode
  ++ match initial_prompt with
     | Some p => if truthy p then [p] else []
     | None => []
     end.

(** The payload of a data URI as the interface words it: what follows the
    [data:] header. *)
Definition payload_after_header (image_path : str) : str :=
  drop (length (lit "data:")) image_path.

(** What a data URI is stored as: the decoded text after its first comma
    when it has the [base64,] marker, its own UTF-8 form otherwise. *)
Definition image_bytes (image_path : str) : exn + bytes :=
  if contains (lit "base64,") image_path then
    match split_1 (lit ",") image_path with
    | [header; encoded] => b64decode encoded
    | _ => inl ValueError
    end
  else
    match encode image_path with
    | Some data => inr data
    | None => inl UnicodeEncodeError
    end.

(** The images of a request that are data URIs. *)
Definition data_uris (images : list str) : list str :=
  List.filter (fun image_path => startswith image_path (lit "data:")) images.

(** ** [main] *)

(** The parsed command line of the server ([parse_args()]). *)
Record Namespace := {
  mode : str;
  port : Z;
  host : str;
}.

(** How [main] ends: [sys.exit(code)], or a call of [mcp.run] with the
    keyword arguments it was given. *)
Inductive startup :=
| SystemExit (code : Z)
| McpRun (transport : option str) (run_host : option str) (run_port : option Z).

Section Startup.

Variable subprocess_run : list str → world → run_outcome.

(** The second half of [main]: the transport chosen by [args.mode]. *)
Definition serve (args : Namespace) : M startup :=
  if bool_decide (mode args = lit "stdio") then
    print_stderr (lit "Starting OpenAI Codex MCP Server in stdio mode...");;
    print_stderr (lit "Available tools: codex_agent, codex_interactive");;
    print_stderr (lit "Server will communicate via standard input/output");;
    ret (McpRun None None None)
  else if bool_decide (mode args = lit "sse") then
    print_stderr (lit "Starting OpenAI Codex MCP Server in SSE mode...");;
    print_stderr (lit "Server will run on http://" ++ host args ++ lit ":"
                  ++ lit (pretty (port args)));;
    print_stderr (lit "Available tools: codex_agent, codex_interactive");;
    print_stderr (lit "Server will use Server-Sent Events for communication");;
    ret (McpRun (Some (lit "sse")) (Some (host args)) (Some (port args)))
  else
    print_stderr (lit "Unknown mode: " ++ mode args);;
    ret (SystemExit 1).

(** [main], from the parsed arguments on: the check that [codex] is
    installed ([which codex], run without [check=True]), then [serve]. *)
Definition main (args : Namespace) : M startup :=
  result ← run subprocess_run [lit "which"; lit "codex"];
  match result with
  | Exited returncode _ _ =>
      if bool_decide (returncode ≠ 0%Z) then
        print_stderr (lit "ERROR: 'codex' command not found in PATH");;
        print_stderr (lit "Please install the OpenAI Codex CLI: npm install -g @openai/codex");;
        ret (SystemExit 1)
      else serve args
  | RunError e =>
      print_stderr (lit "Error checking for codex: " ++ e);;
      ret (SystemExit 1)
  end.

End Startup.

(** What command building may do to the world: nothing is run, nothing is
    printed, and no file that exists is removed or changed. *)
Definition keeps (w w' : world) : Prop :=
  run_calls w' = run_calls w
  ∧ stderr_lines w' = stderr_lines w
  ∧ ∀ path data, files w !! path = Some data → files w' !! path = Some data.

(** The dictionaries [execute] returns, whatever the run comes to. *)
Definition result_shape (d : dict) : Prop :=
  (d !! "status" = Some (VStr (lit "success"))
   ∧ d !! "error" = None ∧ d !! "exit_code" = None
   ∧ is_Some (d !! "output") ∧ is_Some (d !! "stderr"))
  ∨ (d !! "status" = Some (VStr (lit "error"))
     ∧ is_Some (d !! "error")
     ∧ ((∃ n, d !! "exit_code" = Some (VInt n) ∧ n ≠ 0%Z
              ∧ is_Some (d !! "output") ∧ is_Some (d !! "stderr"))
        ∨ (d !! "exit_code" = None ∧ d !! "output" = None
           ∧ d !! "stderr" = None))).

(** ** The child process, and reading its output as text *)

(** What launching the child comes to, before [subprocess.run] reads what
    it captured as text: the child ran and exited, with its return code
    and the bytes it wrote to either stream, or it could not be started
    (the executable is missing, permission is denied, ...), which carries
    the exception's [str]. *)
Inductive child_outcome :=
| ChildExited (returncode : Z) (stdout stderr : bytes)
| NotStarted (message : str).

Section TextMode.

(** The conversion [text=True] applies to captured bytes (the locale's
    codec, strict, then newline translation); [None] for
    [UnicodeDecodeError]. *)
Variable decode : bytes → option str.

(** [str(e)] of the [UnicodeDecodeError] raised for bytes that do not
    decode. *)
Variable UnicodeDecodeError_str : bytes → str.

(** [subprocess.run(cmd, text=True, capture_output=True)] on top of the
    child: standard output is converted first, then standard error, and a
    conversion that fails raises out of the call. *)
Definition text_mode (c : child_outcome) : run_outcome :=
  match c with
  | ChildExited returncode stdout stderr =>
      match decode stdout with
      | None => RunError (UnicodeDecodeError_str stdout)
      | Some out =>
          match decode stderr with
          | None => RunError (UnicodeDecodeError_str stderr)
          | Some err => Exited returncode out err
          end
      end
  | NotStarted message => RunError message
  end.

End TextMode.

(** The payload of a UTF-8 continuation byte. *)
Definition continuation (b : byte) : option N :=
  let n := Byte.to_N b in
  if (128 <=? n) && (n <=? 191) then Some (N.land n 63) else None.

(** [data.decode("utf-8")], strict: [None] for an invalid start byte, a
    truncated or overlong sequence, a surrogate, or a number beyond the
    last code point. *)
Fixpoint decode_utf8 (data : bytes) : option str :=
  match data with
  | [] => Some []
  | b0 :: rest =>
      let n := Byte.to_N b0 in
      if n <? 128 then cons n <$> decode_utf8 rest
      else if (194 <=? n) && (n <=? 223) then
        match rest with
        | b1 :: rest1 =>
            match continuation b1 with
            | Some c1 =>
                cons (N.lor (N.shiftl (N.land n 31) 6) c1) <$> decode_utf8 rest1
            | None => None
            end
        | _ => None
        end
      else if (224 <=? n) && (n <=? 239) then
        match rest with
        | b1 :: b2 :: rest2 =>
            match continuation b1, continuation b2 with
            | Some c1, Some c2 =>
                let c := N.lor (N.shiftl (N.land n 15) 12)
                           (N.lor (N.shiftl c1 6) c2) in
                if (c <? 2048) || ((55296 <=? c) && (c <=? 57343)) then None
                else cons c <$> decode_utf8 rest2
            | _, _ => None
            end
        | _ => None
        end
      else if (240 <=? n) && (n <=? 244) then
        match rest with
        | b1 :: b2 :: b3 :: rest3 =>
            match continuation b1, continuation b2, continuation b3 with
            | Some c1, Some c2, Some c3 =>
                let c := N.lor (N.shiftl (N.land n 7) 18)
                           (N.lor (N.shiftl c1 12)
                              (N.lor (N.shiftl c2 6) c3)) in
                if (c <? 65536) || (1114111 <? c) then None
                else cons c <$> decode_utf8 rest3
            | _, _, _ => None
            end
        | _ => None
        end
      else None
  end.

(** [s.replace("\r\n", "\n")] *)
Fixpoint replace_crlf (s : str) : str :=
  match s with
  | 13 :: 10 :: rest => 10 :: replace_crlf rest
  | c :: rest => c :: replace_crlf rest
  | [] => []
  end.

(** [s.replace("\r", "\n")] *)
Definition replace_cr (s : str) : str :=
  (fun c => if c =? 13 then 10 else c) <$> s.

(** The text-mode conversion under a UTF-8 locale: decode, then translate
    newlines. *)
Definition decode_text (data : bytes) : option str :=
  (fun s => replace_cr (replace_crlf s)) <$> decode_utf8 data.

(** ** Sample environments *)

(** A world with an empty temporary directory and two names to propose. *)
Definition sample_world : world :=
  {| files := ∅;
     tmp_names := [lit "/tmp/tmpk3v9x2ab.png"; lit "/tmp/tmpq7w1z8cd.png"];
     run_calls := []; stderr_lines := [] |}.

(** A [codex] that prints a line and exits successfully. *)
Definition sample_run (cmd : list str) (w : world) : run_outcome :=
  Exited 0 (lit "ok" ++ [10]) (lit "").

(** A [codex] that fails with exit status 3. *)
Definition failing_run (cmd : list str) (w : world) : run_outcome :=
  Exited 3 (lit "") (lit "boom").

(** A [codex] that is not installed. *)
Definition missing_run (cmd : list str) (w : world) : run_outcome :=
  RunError (lit "[Errno 2] No such file or directory: 'codex'").

Definition sample_error_str (cmd : list str) (returncode : Z) : str :=
  lit "Command returned non-zero exit status".

(** The server's default command line. *)
Definition sample_args : Namespace :=
  {| mode := lit "stdio"; port := 8000; host := lit "localhost" |}.

(** A child that exits with [returncode] after writing one byte that is
    no UTF-8 to its standard output. *)
Definition garbled_child (returncode : Z) (cmd : list str) (w : world)
    : child_outcome :=
  ChildExited returncode [xff] [].

(** A [which] that finds [codex]: it prints the path and exits with 0. *)
Definition found_child (cmd : list str) (w : world) : child_outcome :=
  ChildExited 0
    [x2f; x75; x73; x72; x2f; x62; x69; x6e; x2f; x63; x6f; x64; x65; x78; x0a]
    [].

Definition sample_decode_error_str (data : bytes) : str :=
  lit "'utf-8' codec can't decode byte".

(** ** Properties *)

Ltac unfold_M :=
  unfold mbind, M_bind, bind, mret, M_ret, ret, raise, lift in *.

(** Two source literals that differ, differ as [str]s. *)
Ltac lit_neq := let H := fresh in intros H; vm_compute in H; discriminate H.

(** The image loop appends the arguments of the resolved paths, in order. *)
Lemma images_loop_resolve_all images : ∀ cmd w,
  images_loop images cmd w =
    match resolve_all images w with
    | (inl e, w') => (inl e, w')
    | (inr paths, w') => (inr (cmd ++ flat_map image_args paths), w')
    end.
Proof.
  induction images as [|image_path rest IH]; intros cmd w.
  - cbn. unfold ret. by rewrite app_nil_r.
  - cbn [images_loop resolve_all]. unfold_M.
    destruct (resolve_image image_path w) as [[e|path] w1]; [done|].
    rewrite IH. destruct (resolve_all rest w1) as [[e|paths] w2]; [done|].
    cbn [flat_map image_args]. by rewrite <- app_assoc.
Qed.

(** The options added before the images. *)
Lemma build_cmd_head quiet json_output model provider approval_mode :
  extend_if
    (truthy approval_mode && negb (bool_decide (approval_mode = lit "suggest")))
    (match provider with
     | Some provider0 =>
         extend_if (truthy provider0)
           (match model with
            | Some model0 =>
                extend_if (truthy model0)
                  (extend_if json_output
                     (extend_if quiet [lit "codex"] [lit "--quiet"])
                     [lit "--json"])
                  [lit "--model"; model0]
            | None =>
                extend_if json_output
                  (extend_if quiet [lit "codex"] [lit "--quiet"]) [lit "--json"]
            end)
           [lit "--provider"; provider0]
     | None =>
         match model with
         | Some model0 =>
             extend_if (truthy model0)
               (extend_if json_output
                  (extend_if quiet [lit "codex"] [lit "--quiet"])
                  [lit "--json"])
               [lit "--model"; model0]
         | None =>
             extend_if json_output
               (extend_if quiet [lit "codex"] [lit "--quiet"]) [lit "--json"]
         end
     end)
    [lit "--approval-mode"; approval_mode]
  = [lit "codex"] ++ switch_args quiet (lit "--quiet")
    ++ switch_args json_output (lit "--json")
    ++ option_args (lit "--model") model
    ++ option_args (lit "--provider") provider
    ++ approval_args approval_mode.
Proof.
  unfold extend_if, switch_args, option_args, approval_args.
  destruct quiet, json_output, model as [[|??]|], provider as [[|??]|],
    (truthy approval_mode && _); reflexivity.
Qed.

(** [build_cmd] fails exactly when an image cannot be resolved, and
    otherwise returns the laid out vector. *)
Lemma build_cmd_unfold prompt model images approval_mode quiet json_output
    provider additional_args w :
  build_cmd prompt model images approval_mode quiet json_output provider
      additional_args w =
    match resolve_all (default [] images) w with
    | (inl e, w') => (inl e, w')
    | (inr paths, w') =>
        (inr (command_layout prompt model paths approval_mode quiet
                json_output provider (default [] additional_args)), w')
    end.
Proof.
  unfold build_cmd, command_layout. unfold_M.
  set (head := extend_if _ _ _).
  assert (Hhead : head = [lit "codex"] ++ switch_args quiet (lit "--quiet")
    ++ switch_args json_output (lit "--json")
    ++ option_args (lit "--model") model
    ++ option_args (lit "--provider") provider
    ++ approval_args approval_mode) by apply build_cmd_head.
  assert (Himg :
    match images with
    | Some images0 =>
        if truthy images0 then images_loop images0 head
        else (fun w => (inr head, w))
    | None => (fun w => (inr head, w))
    end w = images_loop (default [] images) head w).
  { destruct images as [[|??]|]; reflexivity. }
  rewrite Himg, images_loop_resolve_all.
  destruct (resolve_all (default [] images) w) as [[e|paths] w']; [done|].
  f_equal. f_equal. rewrite Hhead.
  assert (Hextra : ∀ c,
    match additional_args with
    | Some a => extend_if (truthy a) c a
    | None => c
    end = c ++ default [] additional_args).
  { intros c. destruct additional_args as [[|??]|]; cbn; by rewrite ?app_nil_r. }
  rewrite Hextra. by rewrite <- !app_assoc.
Qed.

(** [resolve_all] returns one path per image. *)
Lemma resolve_all_length images : ∀ w paths w',
  resolve_all images w = (inr paths, w') → length paths = length images.
Proof.
  induction images as [|image_path rest IH]; intros w paths w'.
  - cbn. unfold ret. by intros [= <- _].
  - cbn [resolve_all]. unfold_M.
    destruct (resolve_image image_path w) as [[e|path] w1]; [done|].
    destruct (resolve_all rest w1) as [[e|ps] w2] eqn:Hrest; [done|].
    intros [= <- _]. cbn. f_equal. eapply IH, Hrest.
Qed.

Lemma resolve_all_app l1 : ∀ l2 w,
  resolve_all (l1 ++ l2) w =
    match resolve_all l1 w with
    | (inl e, w1) => (inl e, w1)
    | (inr ps, w1) =>
        match resolve_all l2 w1 with
        | (inl e, w2) => (inl e, w2)
        | (inr qs, w2) => (inr (ps ++ qs), w2)
        end
    end.
Proof.
  induction l1 as [|image_path rest IH]; intros l2 w.
  - cbn. unfold ret. by destruct (resolve_all l2 w) as [[?|?] ?].
  - cbn [app resolve_all]. unfold_M.
    destruct (resolve_image image_path w) as [[e|path] w1]; [done|].
    rewrite IH. destruct (resolve_all rest w1) as [[e|ps] w2]; [done|].
    by destruct (resolve_all l2 w2) as [[?|?] ?].
Qed.

(** Anything that is no data URI is its own path, and costs nothing. *)
Lemma resolve_image_path image_path w :
  startswith image_path (lit "data:") = false →
  resolve_image image_path w = (inr image_path, w).
Proof. intros H. unfold resolve_image. by rewrite H. Qed.

Lemma first_unused_fresh fs names : ∀ name rest,
  first_unused fs names = Some (name, rest) → fs !! name = None.
Proof.
  induction names as [|n names IH]; intros name rest; [done|].
  cbn. destruct (fs !! n) eqn:Hn; [apply IH|]. by intros [= <- _].
Qed.

Lemma resolve_image_raw image_path w :
  startswith image_path (lit "data:") = true →
  contains (lit "base64,") image_path = false →
  resolve_image image_path w =
    match first_unused (files w) (tmp_names w) with
    | None =>
        (inl FileExistsError,
         {| files := files w; tmp_names := []; run_calls := run_calls w;
            stderr_lines := stderr_lines w |})
    | Some (name, rest) =>
        match encode image_path with
        | Some data => (inr name, with_file name data rest w)
        | None => (inl UnicodeEncodeError, with_file name [] rest w)
        end
    end.
Proof.
  intros Hdata Hb64. unfold resolve_image. rewrite Hdata, Hb64.
  unfold_M. unfold NamedTemporaryFile.
  destruct (first_unused (files w) (tmp_names w)) as [[name rest]|]; [|done].
  destruct (encode image_path) as [data|]; [|done].
  unfold write, with_file. cbn. by rewrite alter_insert_eq.
Qed.

Lemma resolve_image_base64 image_path header encoded w :
  startswith image_path (lit "data:") = true →
  contains (lit "base64,") image_path = true →
  split_1 (lit ",") image_path = [header; encoded] →
  resolve_image image_path w =
    match first_unused (files w) (tmp_names w) with
    | None =>
        (inl FileExistsError,
         {| files := files w; tmp_names := []; run_calls := run_calls w;
            stderr_lines := stderr_lines w |})
    | Some (name, rest) =>
        match b64decode encoded with
        | inr data => (inr name, with_file name data rest w)
        | inl e => (inl e, with_file name [] rest w)
        end
    end.
Proof.
  intros Hdata Hb64 Hsplit. unfold resolve_image. rewrite Hdata, Hb64, Hsplit.
  unfold_M. unfold NamedTemporaryFile.
  destruct (first_unused (files w) (tmp_names w)) as [[name rest]|]; [|done].
  destruct (b64decode encoded) as [e|data]; [done|].
  unfold write, with_file. cbn. by rewrite alter_insert_eq.
Qed.

Lemma startswith_elem p : ∀ s x, startswith s p = true → x ∈ p → x ∈ s.
Proof.
  induction p as [|c p IH]; intros s x Hs Hx; [by apply elem_of_nil in Hx|].
  destruct s as [|d s]; [done|]. cbn in Hs.
  destruct (decide (c = d)) as [->|]; [|done].
  apply elem_of_cons in Hx as [->|Hx]; [by left|right; eauto].
Qed.

Lemma contains_elem needle s x :
  contains needle s = true → x ∈ needle → x ∈ s.
Proof.
  induction s as [|d s IH]; intros Hc Hx.
  - cbn in Hc. rewrite orb_false_r in Hc. eauto using startswith_elem.
  - cbn [contains] in Hc. apply orb_true_iff in Hc as [Hc|Hc].
    + eauto using startswith_elem.
    + right. eauto.
Qed.

Lemma partition_at_char c s : c ∈ s → is_Some (partition_at [c] s).
Proof.
  induction s as [|d s IH]; intros Hc; [by apply elem_of_nil in Hc|].
  cbn. destruct (decide (c = d)) as [->|Hne]; [done|].
  apply elem_of_cons in Hc as [->|Hc]; [done|].
  destruct (IH Hc) as [[h t] ->]. done.
Qed.

(** A data URI with the base64 marker always splits in two at its first
    comma: the unpacking of [split(",", 1)] cannot fail. *)
Lemma split_1_base64 image_path :
  contains (lit "base64,") image_path = true →
  ∃ header encoded, split_1 (lit ",") image_path = [header; encoded].
Proof.
  intros Hc. unfold split_1.
  destruct (partition_at_char 44 image_path) as [[h t] Hp].
  - eapply contains_elem; [exact Hc|]. apply list_elem_of_lookup. by exists 6%nat.
  - change (lit ",") with [44]. rewrite Hp. eauto.
Qed.

Lemma flat_map_image_args_app ps qs :
  flat_map image_args (ps ++ qs)
  = flat_map image_args ps ++ flat_map image_args qs.
Proof. apply flat_map_app. Qed.

Lemma flag_in_image_args flag paths :
  flag ≠ lit "--image" → flag ∈ flat_map image_args paths → flag ∈ paths.
Proof.
  intros Hne. induction paths as [|p paths IH]; cbn; [done|].
  rewrite !elem_of_cons. intros [?|[->|?]]; [done|by left|right; auto].
Qed.

(** Where [--approval-mode] can come from when the mode adds nothing. *)
Lemma flag_in_layout prompt model paths approval_mode quiet json_output
    provider additional_args :
  approval_args approval_mode = [] →
  lit "--approval-mode"
    ∈ command_layout prompt model paths approval_mode quiet json_output
        provider additional_args →
  model = Some (lit "--approval-mode")
  ∨ provider = Some (lit "--approval-mode")
  ∨ lit "--approval-mode" ∈ paths
  ∨ lit "--approval-mode" ∈ additional_args
  ∨ prompt = lit "--approval-mode".
Proof.
  intros Hnone. unfold command_layout. rewrite Hnone.
  rewrite !elem_of_app, !list_elem_of_singleton, elem_of_nil.
  intros [H|[H|[H|[H|[H|[H|[H|[H|H]]]]]]]].
  - by vm_compute in H.
  - destruct quiet; cbn in H; [|by apply elem_of_nil in H].
    apply list_elem_of_singleton in H. by vm_compute in H.
  - destruct json_output; cbn in H; [|by apply elem_of_nil in H].
    apply list_elem_of_singleton in H. by vm_compute in H.
  - destruct model as [[|c m]|]; cbn in H; try by apply elem_of_nil in H.
    apply elem_of_cons in H as [H|H]; [by vm_compute in H|].
    apply list_elem_of_singleton in H. left. by rewrite H.
  - destruct provider as [[|c m]|]; cbn in H; try by apply elem_of_nil in H.
    apply elem_of_cons in H as [H|H]; [by vm_compute in H|].
    apply list_elem_of_singleton in H. right; left. by rewrite H.
  - done.
  - right; right; left. eapply flag_in_image_args; [|exact H]. lit_neq.
  - right; right; right; left. exact H.
  - right; right; right; right. by rewrite H.
Qed.

Lemma approval_args_given approval_mode :
  approval_mode ≠ lit "suggest" → approval_mode ≠ lit "" →
  approval_args approval_mode = [lit "--approval-mode"; approval_mode].
Proof.
  intros Hs He. unfold approval_args.
  destruct approval_mode; [done|]. cbn. by rewrite bool_decide_eq_false_2.
Qed.

Lemma approval_args_default approval_mode :
  approval_mode = lit "suggest" ∨ approval_mode = lit "" →
  approval_args approval_mode = [].
Proof. by intros [->| ->]. Qed.
(** The command of [codex_interactive], option by option. *)
Lemma interactive_cmd_layout initial_prompt model approval_mode provider :
  match initial_prompt with
  | Some initial_prompt0 =>
      extend_if (truthy initial_prompt0)
        (extend_if
           (truthy approval_mode
            && negb (bool_decide (approval_mode = lit "suggest")))
           match provider with
           | Some provider0 =>
               extend_if (truthy provider0)
                 (extend_if (truthy model) [lit "codex"] [lit "--model"; model])
                 [lit "--provider"; provider0]
           | None => extend_if (truthy model) [lit "codex"] [lit "--model"; model]
           end [lit "--approval-mode"; approval_mode])
        [initial_prompt0]
  | None =>
      extend_if
        (truthy approval_mode
         && negb (bool_decide (approval_mode = lit "suggest")))
        match provider with
        | Some provider0 =>
            extend_if (truthy provider0)
              (extend_if (truthy model) [lit "codex"] [lit "--model"; model])
              [lit "--provider"; provider0]
        | None => extend_if (truthy model) [lit "codex"] [lit "--model"; model]
        end [lit "--approval-mode"; approval_mode]
  end
  = interactive_layout initial_prompt model approval_mode provider.
Proof.
  unfold interactive_layout, extend_if, option_args, approval_args.
  destruct initial_prompt as [[|??]|], model as [|??], provider as [[|??]|],
    (truthy approval_mode && _); reflexivity.
Qed.

Section Properties.

Variable subprocess_run : list str → world → run_outcome.
Variable CalledProcessError_str : list str → Z → str.

(** C1. With an empty prompt [codex_agent] returns the two-entry error
    dictionary with the fixed message, whatever the other arguments: the
    world is left as it was (nothing was run, no file written) and the
    dictionary has no "command" entry. *)
Theorem codex_agent_empty_prompt model approval_mode images provider
    json_output task_type additional_args w :
  ∃ d : dict,
    codex_agent subprocess_run CalledProcessError_str (lit "") model
      approval_mode images provider json_output task_type additional_args w
      = (inr d, w)
    ∧ d !! "status" = Some (VStr (lit "error"))
    ∧ d !! "error" = Some (VStr (lit "Missing required parameter: prompt"))
    ∧ d !! "command" = None
    ∧ dom d = {[ "status"; "error" ]}.
Proof.
  eexists. split; [reflexivity|].
  repeat split; reflexivity.
Qed.

(** [execute] by the outcome of its one call of [subprocess.run]: the
    status is "success" exactly when the call returned with code 0; a call
    that returned with another code [n] gives an "error" dictionary with
    exit code [n]; a call that raised anything else gives the exception's
    text and the command, and no "exit_code", "output" or "stderr". *)
Theorem execute_outcomes cmd w :
  let at_call :=
    (print_stderr (lit "Executing command: " ++ join (lit " ") cmd) w).2 in
  ∃ (d : dict) w',
    execute subprocess_run CalledProcessError_str cmd w = (inr d, w')
    ∧ run_calls w' = run_calls w ++ [cmd]
    ∧ (d !! "status" = Some (VStr (lit "success"))
       ↔ ∃ out err, subprocess_run cmd at_call = Exited 0 out err)
    ∧ match subprocess_run cmd at_call with
      | Exited n out err =>
          if decide (n = 0%Z) then
            d = {[ "status" := VStr (lit "success");
                   "output" := VStr (strip out);
                   "stderr" := VStr err;
                   "command" := VStr (join (lit " ") cmd) ]}
          else
            d = {[ "status" := VStr (lit "error");
                   "error" := VStr (CalledProcessError_str cmd n);
                   "output" := VStr out;
                   "stderr" := VStr err;
                   "exit_code" := VInt n;
                   "command" := VStr (join (lit " ") cmd) ]}
            ∧ d !! "exit_code" = Some (VInt n)
      | RunError message =>
          d = {[ "status" := VStr (lit "error");
                 "error" := VStr message;
                 "command" := VStr (join (lit " ") cmd) ]}
          ∧ d !! "exit_code" = None
          ∧ d !! "output" = None
          ∧ d !! "stderr" = None
      end.
Proof.
  intros at_call. subst at_call. unfold execute, run, print_stderr.
  unfold_M. cbn [snd].
  destruct (subprocess_run cmd _) as [n out err|message] eqn:Hrun.
  - destruct n as [|p|p].
    + do 2 eexists. split; [reflexivity|]. split; [reflexivity|].
      split; [|reflexivity]. split; [eauto|reflexivity].
    + do 2 eexists. split; [reflexivity|]. split; [reflexivity|].
      split; [|by split]. split; [|by intros (? & ? & ?)].
      intros H. vm_compute in H. discriminate H.
    + do 2 eexists. split; [reflexivity|]. split; [reflexivity|].
      split; [|by split]. split; [|by intros (? & ? & ?)].
      intros H. vm_compute in H. discriminate H.
  - do 2 eexists. split; [reflexivity|]. split; [reflexivity|].
    split; [|by repeat split]. split; [|by intros (? & ? & ?)].
    intros H. vm_compute in H. discriminate H.
Qed.

(** C3. Whenever every image resolves, [build_cmd] returns the argument
    vector in this fixed order: "codex"; "--quiet" when [quiet];
    "--json" when [json_output]; "--model" and the name when a (non-empty)
    model was given; "--provider" and the name likewise; "--approval-mode"
    and the mode, which happens only if the mode differs from "suggest";
    "--image" and the resolved path for each image, in the order of
    [images]; the additional arguments as they are; and the prompt as the
    last element.  When an image cannot be resolved the exception of that
    image is what [build_cmd] raises. *)
Theorem build_cmd_order prompt model images approval_mode quiet json_output
    provider additional_args w :
  match resolve_all (default [] images) w with
  | (inl e, w') =>
      build_cmd prompt model images approval_mode quiet json_output provider
        additional_args w = (inl e, w')
  | (inr paths, w') =>
      ∃ cmd,
        build_cmd prompt model images approval_mode quiet json_output provider
          additional_args w = (inr cmd, w')
        ∧ cmd =
            [lit "codex"]
            ++ (if quiet then [lit "--quiet"] else [])
            ++ (if json_output then [lit "--json"] else [])
            ++ option_args (lit "--model") model
            ++ option_args (lit "--provider") provider
            ++ approval_args approval_mode
            ++ flat_map (fun path => [lit "--image"; path]) paths
            ++ default [] additional_args
            ++ [prompt]
        ∧ last cmd = Some prompt
        ∧ length paths = length (default [] images)
        ∧ (approval_args approval_mode = []
           ∨ approval_args approval_mode = [lit "--approval-mode"; approval_mode]
             ∧ approval_mode ≠ lit "suggest")
  end.
Proof.
  rewrite build_cmd_unfold.
  destruct (resolve_all (default [] images) w) as [[e|paths] w'] eqn:Hres;
    [reflexivity|].
  eexists. split; [reflexivity|]. split; [reflexivity|].
  split; [|split].
  - unfold command_layout. by rewrite !app_assoc, last_snoc.
  - eapply resolve_all_length, Hres.
  - unfold approval_args. destruct (truthy approval_mode); cbn; [|by left].
    case_bool_decide; cbn; [by left|by right].
Qed.

(** C4. [_optimize_prompt_for_task] returns a prefix followed by the
    prompt as it was.  The prefix depends on the task type alone, and is
    empty for "general" and for every task type outside the documented
    ones; the prompt is a suffix of the result. *)
Theorem optimize_prompt_prefix prompt task_type :
  ∃ prefix : str,
    _optimize_prompt_for_task prompt task_type = prefix ++ prompt
    ∧ (∀ other, _optimize_prompt_for_task other task_type = prefix ++ other)
    ∧ (task_type = lit "general" → prefix = [])
    ∧ (task_type ∉ task_types → prefix = [])
    ∧ prompt `suffix_of` _optimize_prompt_for_task prompt task_type.
Proof.
  exists (default (lit "") (task_prefixes !! task_type)).
  split; [reflexivity|]. split; [reflexivity|]. split; [|split].
  - intros ->. reflexivity.
  - intros Hnot. unfold task_prefixes.
    rewrite (not_elem_of_list_to_map_1 _ task_type); [reflexivity|].
    unfold task_types in Hnot. cbn [fmap list_fmap fst].
    rewrite !not_elem_of_cons in Hnot |- *. tauto.
  - unfold _optimize_prompt_for_task. by apply suffix_app_r.
Qed.

(** C5, in the form that holds of the code.  With the approval mode "suggest", and with the empty
    one, [build_cmd] adds no "--approval-mode" of its own: the vector
    holds that text only where the model, the provider, a resolved image
    path, an additional argument or the prompt is that very text.  With
    any other approval mode the vector holds "--approval-mode"
    immediately followed by the mode as given, right after the options
    that precede it. *)
Theorem approval_mode_flag prompt model images approval_mode quiet json_output
    provider additional_args w :
  match resolve_all (default [] images) w with
  | (inl e, w') =>
      build_cmd prompt model images approval_mode quiet json_output provider
        additional_args w = (inl e, w')
  | (inr paths, w') =>
      ∃ cmd,
        build_cmd prompt model images approval_mode quiet json_output provider
          additional_args w = (inr cmd, w')
        ∧ (approval_mode = lit "suggest" ∨ approval_mode = lit "" →
           lit "--approval-mode" ∈ cmd →
           model = Some (lit "--approval-mode")
           ∨ provider = Some (lit "--approval-mode")
           ∨ lit "--approval-mode" ∈ paths
           ∨ lit "--approval-mode" ∈ default [] additional_args
           ∨ prompt = lit "--approval-mode")
        ∧ (approval_mode ≠ lit "suggest" → approval_mode ≠ lit "" →
           ∃ after,
             cmd = ([lit "codex"]
                    ++ switch_args quiet (lit "--quiet")
                    ++ switch_args json_output (lit "--json")
                    ++ option_args (lit "--model") model
                    ++ option_args (lit "--provider") provider)
                   ++ [lit "--approval-mode"; approval_mode] ++ after)
  end.
Proof.
  rewrite build_cmd_unfold.
  destruct (resolve_all (default [] images) w) as [[e|paths] w']; [reflexivity|].
  eexists. split; [reflexivity|]. split.
  - intros Hmode. apply flag_in_layout. by apply approval_args_default.
  - intros Hs He. unfold command_layout. rewrite (approval_args_given _ Hs He).
    eexists. rewrite <- !app_assoc. reflexivity.
Qed.

(** C6. For the single image [data:image/png;base64,QUJD], whose payload
    decodes to the three bytes [41 42 43] (hexadecimal), [build_cmd]
    creates a file under the first proposed name that is free, a name no
    file had before, holding exactly those bytes, and the vector it
    returns has "--image" followed by that name.  It fails only when no
    proposed name is free. *)
Theorem data_uri_image_file prompt model approval_mode quiet json_output
    provider additional_args w :
  b64decode (lit "QUJD") = inr [x41; x42; x43]
  ∧ match first_unused (files w) (tmp_names w) with
    | None =>
        ∃ w',
          build_cmd prompt model (Some [lit "data:image/png;base64,QUJD"])
            approval_mode quiet json_output provider additional_args w
          = (inl FileExistsError, w')
          ∧ files w' = files w
    | Some (name, rest) =>
        files w !! name = None
        ∧ ∃ cmd w',
            build_cmd prompt model (Some [lit "data:image/png;base64,QUJD"])
              approval_mode quiet json_output provider additional_args w
            = (inr cmd, w')
            ∧ files w' = <[name := [x41; x42; x43]]> (files w)
            ∧ cmd = command_layout prompt model [name] approval_mode quiet
                      json_output provider (default [] additional_args)
            ∧ ∃ before after, cmd = before ++ [lit "--image"; name] ++ after
    end.
Proof.
  split; [reflexivity|].
  rewrite build_cmd_unfold. cbn [from_option id resolve_all]. unfold_M.
  rewrite (resolve_image_base64 _ (lit "data:image/png;base64") (lit "QUJD"));
    [|reflexivity..].
  destruct (first_unused (files w) (tmp_names w)) as [[name rest]|] eqn:Hfirst.
  - split; [eapply first_unused_fresh, Hfirst|].
    change (b64decode (lit "QUJD")) with (@inr exn bytes [x41; x42; x43]).
    do 2 eexists. split; [reflexivity|]. split; [reflexivity|].
    split; [reflexivity|]. unfold command_layout. cbn [flat_map image_args app].
    exists ([lit "codex"] ++ switch_args quiet (lit "--quiet")
            ++ switch_args json_output (lit "--json")
            ++ option_args (lit "--model") model
            ++ option_args (lit "--provider") provider
            ++ approval_args approval_mode),
           (default [] additional_args ++ [prompt]).
    rewrite <- !app_assoc. reflexivity.
  - eexists. split; reflexivity.
Qed.

(** C7, in the form that holds of the code.  An image reference that starts with [data:] and has
    no [base64,] marker is written whole, its [data:] header included, in
    UTF-8, to a new temporary file (a name no file had before), and the
    image loop passes "--image" with that file's name.  The write is
    skipped, and [UnicodeEncodeError] raised, when the text has no UTF-8
    form; nothing is created when no proposed name is free. *)
Theorem data_uri_without_base64 image_path w :
  startswith image_path (lit "data:") = true →
  contains (lit "base64,") image_path = false →
  match first_unused (files w) (tmp_names w) with
  | None =>
      ∃ w', resolve_image image_path w = (inl FileExistsError, w')
            ∧ files w' = files w
  | Some (name, rest) =>
      files w !! name = None
      ∧ match encode image_path with
        | Some data =>
            resolve_image image_path w = (inr name, with_file name data rest w)
            ∧ files (with_file name data rest w) = <[name := data]> (files w)
            ∧ ∀ more cmd,
                images_loop (image_path :: more) cmd w
                = images_loop more (cmd ++ [lit "--image"; name])
                    (with_file name data rest w)
        | None =>
            resolve_image image_path w
            = (inl UnicodeEncodeError, with_file name [] rest w)
        end
  end.
Proof.
  intros Hdata Hb64.
  pose proof (resolve_image_raw image_path w Hdata Hb64) as Hres.
  destruct (first_unused (files w) (tmp_names w)) as [[name rest]|] eqn:Hfirst.
  - split; [eapply first_unused_fresh, Hfirst|].
    destruct (encode image_path) as [data|]; [|exact Hres].
    split; [exact Hres|]. split; [reflexivity|].
    intros more cmd. cbn [images_loop]. unfold_M. by rewrite Hres.
  - eexists. split; [exact Hres|reflexivity].
Qed.

(** C8. An image entry that does not start with [data:] resolves to
    itself in a world left as it was (no file is created for it), and in
    the vector built for a list of images that contains it, "--image" is
    followed by the entry itself at the entry's place: after the
    arguments of the images before it and before those of the images
    after it, whose resolution continues from the very world the earlier
    images left. *)
Theorem plain_image_path prompt model before image_path after approval_mode
    quiet json_output provider additional_args w :
  startswith image_path (lit "data:") = false →
  (∀ w0, resolve_image image_path w0 = (inr image_path, w0))
  ∧ match resolve_all before w with
    | (inl e, w1) =>
        build_cmd prompt model (Some (before ++ image_path :: after))
          approval_mode quiet json_output provider additional_args w
        = (inl e, w1)
    | (inr ps, w1) =>
        match resolve_all after w1 with
        | (inl e, w2) =>
            build_cmd prompt model (Some (before ++ image_path :: after))
              approval_mode quiet json_output provider additional_args w
            = (inl e, w2)
        | (inr qs, w2) =>
            ∃ cmd,
              build_cmd prompt model (Some (before ++ image_path :: after))
                approval_mode quiet json_output provider additional_args w
              = (inr cmd, w2)
              ∧ cmd =
                  ([lit "codex"]
                   ++ switch_args quiet (lit "--quiet")
                   ++ switch_args json_output (lit "--json")
                   ++ option_args (lit "--model") model
                   ++ option_args (lit "--provider") provider
                   ++ approval_args approval_mode
                   ++ flat_map image_args ps)
                  ++ [lit "--image"; image_path]
                  ++ (flat_map image_args qs
                      ++ default [] additional_args ++ [prompt])
        end
    end.
Proof.
  intros Hplain. split; [intros w0; by apply resolve_image_path|].
  rewrite build_cmd_unfold. cbn [from_option id]. rewrite resolve_all_app.
  destruct (resolve_all before w) as [[e|ps] w1]; [reflexivity|].
  cbn [resolve_all]. unfold_M. rewrite (resolve_image_path _ _ Hplain).
  destruct (resolve_all after w1) as [[e|qs] w2]; [reflexivity|].
  eexists. split; [reflexivity|]. unfold command_layout.
  rewrite flat_map_image_args_app. cbn [flat_map image_args].
  by rewrite <- !app_assoc.
Qed.

(** C9. [codex_interactive] returns in the world it was called in: no
    call of [subprocess.run] is made and no file is written, whatever the
    arguments.  Its dictionary holds the joined command line of the
    interactive session and, beside it, a status, a message, a note and
    three instructions that do not depend on the arguments. *)
Theorem codex_interactive_runs_nothing initial_prompt model approval_mode
    provider w :
  ∃ d : dict,
    codex_interactive initial_prompt model approval_mode provider w = (inr d, w)
    ∧ d !! "status" = Some (VStr (lit "info"))
    ∧ d !! "command"
      = Some (VStr (join (lit " ")
                      ([lit "codex"]
                       ++ option_args (lit "--model") (Some model)
                       ++ option_args (lit "--provider") provider
                       ++ approval_args approval_mode
                       ++ match initial_prompt with
                          | Some p => if truthy p then [p] else []
                          | None => []
                          end)))
    ∧ d !! "message"
      = Some (VStr (lit "Interactive Codex session would be started with the following command:"))
    ∧ d !! "note"
      = Some (VStr (lit "This requires terminal access. For automated tasks, use codex_agent instead."))
    ∧ d !! "instructions"
      = Some (VList
                [ lit "Run this command in your terminal to start the interactive session";
                  lit "Type 'exit' or press Ctrl+C to end the session";
                  lit "Use different approval modes for varying levels of autonomy" ])
    ∧ dom d = {[ "status"; "message"; "command"; "note"; "instructions" ]}.
Proof.
  unfold codex_interactive, ret. cbv zeta. rewrite interactive_cmd_layout.
  eexists. split; [reflexivity|]. repeat split; reflexivity.
Qed.

(** C10. With the empty approval mode, [codex_agent] and
    [codex_interactive] behave as with "suggest": the results are equal,
    the command built for [codex_agent] has no "--approval-mode" between
    the provider option and the images, and the command reported by
    [codex_interactive] has none between the provider option and the
    initial prompt. *)
Theorem empty_approval_mode_is_suggest prompt model images provider json_output
    task_type additional_args initial_prompt w :
  codex_agent subprocess_run CalledProcessError_str prompt model (lit "")
      images provider json_output task_type additional_args w
    = codex_agent subprocess_run CalledProcessError_str prompt model
        (lit "suggest") images provider json_output task_type additional_args w
  ∧ build_cmd (_optimize_prompt_for_task prompt task_type) (Some model)
        (Some (default [] images)) (lit "") true json_output provider
        (Some (default [] additional_args)) w
    = build_cmd (_optimize_prompt_for_task prompt task_type) (Some model)
        (Some (default [] images)) (lit "suggest") true json_output provider
        (Some (default [] additional_args)) w
  ∧ match resolve_all (default [] images) w with
    | (inl e, w') =>
        build_cmd (_optimize_prompt_for_task prompt task_type) (Some model)
          (Some (default [] images)) (lit "") true json_output provider
          (Some (default [] additional_args)) w = (inl e, w')
    | (inr paths, w') =>
        build_cmd (_optimize_prompt_for_task prompt task_type) (Some model)
          (Some (default [] images)) (lit "") true json_output provider
          (Some (default [] additional_args)) w
        = (inr ([lit "codex"; lit "--quiet"]
                ++ switch_args json_output (lit "--json")
                ++ option_args (lit "--model") (Some model)
                ++ option_args (lit "--provider") provider
                ++ flat_map image_args paths
                ++ default [] additional_args
                ++ [_optimize_prompt_for_task prompt task_type]), w')
    end
  ∧ codex_interactive initial_prompt model (lit "") provider w
    = codex_interactive initial_prompt model (lit "suggest") provider w
  ∧ ∃ d : dict,
      codex_interactive initial_prompt model (lit "") provider w = (inr d, w)
      ∧ d !! "command"
        = Some (VStr (join (lit " ")
                        ([lit "codex"]
                         ++ option_args (lit "--model") (Some model)
                         ++ option_args (lit "--provider") provider
                         ++ match initial_prompt with
                            | Some p => if truthy p then [p] else []
                            | None => []
                            end))).
Proof.
  split; [|split; [|split; [|split]]].
  - unfold codex_agent. destruct (negb (truthy prompt)); [reflexivity|].
    unfold run_codex. unfold_M. by rewrite !build_cmd_unfold.
  - by rewrite !build_cmd_unfold.
  - rewrite build_cmd_unfold. cbn [from_option id].
    by destruct (resolve_all (default [] images) w) as [[e|paths] w'].
  - reflexivity.
  - unfold codex_interactive, ret. cbv zeta. rewrite interactive_cmd_layout.
    eexists. split; reflexivity.
Qed.

End Properties.

(** ** Worked cases *)

Lemma approval_mode_flag_counterexample :
  (build_cmd (lit "hi") None None (lit "suggest") true false None
     (Some [lit "--approval-mode"; lit "full-auto"]) sample_world
   = (inr [lit "codex"; lit "--quiet"; lit "--approval-mode";
           lit "full-auto"; lit "hi"], sample_world)
   ∧ lit "--approval-mode"
       ∈ [lit "codex"; lit "--quiet"; lit "--approval-mode";
          lit "full-auto"; lit "hi"])
  ∧ (lit "" ≠ lit "suggest"
     ∧ build_cmd (lit "hi") None None (lit "") true false None None
         sample_world
       = (inr [lit "codex"; lit "--quiet"; lit "hi"], sample_world)
     ∧ lit "--approval-mode" ∉ [lit "codex"; lit "--quiet"; lit "hi"]).
Proof.
  split; [split; [reflexivity|]|split; [lit_neq|split; [reflexivity|]]].
  - apply list_elem_of_lookup. by exists 2%nat.
  - rewrite !not_elem_of_cons. repeat split; try lit_neq. apply not_elem_of_nil.
Qed.

Lemma data_uri_payload_counterexample :
  startswith (lit "data:hello") (lit "data:") = true
  ∧ contains (lit "base64,") (lit "data:hello") = false
  ∧ payload_after_header (lit "data:hello") = lit "hello"
  ∧ ∃ w',
      resolve_image (lit "data:hello") sample_world
      = (inr (lit "/tmp/tmpk3v9x2ab.png"), w')
      ∧ files w' !! lit "/tmp/tmpk3v9x2ab.png" = encode (lit "data:hello")
      ∧ files w' !! lit "/tmp/tmpk3v9x2ab.png"
        ≠ encode (payload_after_header (lit "data:hello")).
Proof.
  split; [reflexivity|]. split; [reflexivity|]. split; [reflexivity|].
  eexists. split; [reflexivity|]. split; [reflexivity|].
  intros H. vm_compute in H. discriminate H.
Qed.

Lemma data_uri_without_base64_witness :
  resolve_image (lit "data:hello") sample_world
  = (inr (lit "/tmp/tmpk3v9x2ab.png"),
     with_file (lit "/tmp/tmpk3v9x2ab.png")
       [x64; x61; x74; x61; x3a; x68; x65; x6c; x6c; x6f]
       [lit "/tmp/tmpq7w1z8cd.png"] sample_world).
Proof.
  exact (proj1 (proj2
    (data_uri_without_base64 (lit "data:hello") sample_world eq_refl eq_refl))).
Defined.

Lemma plain_image_path_witness :
  build_cmd (lit "describe") (Some (lit "o4-mini"))
    (Some [lit "data:image/png;base64,QUJD"; lit "design.png"])
    (lit "suggest") true false None None sample_world
  = (inr [lit "codex"; lit "--quiet"; lit "--model"; lit "o4-mini";
          lit "--image"; lit "/tmp/tmpk3v9x2ab.png";
          lit "--image"; lit "design.png"; lit "describe"],
     with_file (lit "/tmp/tmpk3v9x2ab.png") [x41; x42; x43]
       [lit "/tmp/tmpq7w1z8cd.png"] sample_world).
Proof.
  destruct (proj2 (plain_image_path (lit "describe") (Some (lit "o4-mini"))
    [lit "data:image/png;base64,QUJD"] (lit "design.png") []
    (lit "suggest") true false None None sample_world eq_refl))
    as (cmd & Hcmd & ->).
  exact Hcmd.
Defined.

Example lit_data : lit "data:" = [100; 97; 116; 97; 58].
Proof. reflexivity. Qed.

Example split_1_data_uri :
  split_1 (lit ",") (lit "data:image/png;base64,QUJD")
  = [lit "data:image/png;base64"; lit "QUJD"].
Proof. reflexivity. Qed.

Example b64decode_QUJD : b64decode (lit "QUJD") = inr [x41; x42; x43].
Proof. reflexivity. Qed.

Example b64decode_padded : b64decode (lit "QUI=") = inr [x41; x42].
Proof. reflexivity. Qed.

Example b64decode_truncated : b64decode (lit "QUJDR") = inl BinasciiError.
Proof. reflexivity. Qed.

Example encode_euro : encode [8364] = Some [xe2; x82; xac].
Proof. reflexivity. Qed.

Example encode_surrogate : encode [55296] = None.
Proof. reflexivity. Qed.

Example strip_ok : strip ([32; 9] ++ lit "ok" ++ [13; 10]) = lit "ok".
Proof. reflexivity. Qed.

Example optimize_testing :
  _optimize_prompt_for_task (lit "add cases") (lit "testing")
  = lit "Write comprehensive tests for the following code or fix existing test issues:"
    ++ [10; 10] ++ lit "add cases".
Proof. reflexivity. Qed.

(** A stub that exits 0 printing "ok": success, with output "ok". *)
Example codex_agent_success :
  codex_agent sample_run sample_error_str (lit "hi") (lit "o4-mini")
    (lit "suggest") None None false (lit "general") None sample_world
  = (inr {[ "status" := VStr (lit "success");
            "output" := VStr (lit "ok");
            "stderr" := VStr (lit "");
            "command" := VStr (lit "codex --quiet --model o4-mini hi") ]},
     {| files := ∅;
        tmp_names := tmp_names sample_world;
        run_calls := [[lit "codex"; lit "--quiet"; lit "--model";
                       lit "o4-mini"; lit "hi"]];
        stderr_lines :=
          [lit "Executing command: codex --quiet --model o4-mini hi"] |}).
Proof. reflexivity. Qed.

(** A stub that exits 3: an error dictionary with exit code 3. *)
Example codex_agent_exit_3 :
  ∃ d w',
    codex_agent failing_run sample_error_str (lit "hi") (lit "o4-mini")
      (lit "full-auto") None None true (lit "general") None sample_world
    = (inr d, w')
    ∧ d !! "status" = Some (VStr (lit "error"))
    ∧ d !! "exit_code" = Some (VInt 3)
    ∧ d !! "stderr" = Some (VStr (lit "boom"))
    ∧ d !! "command"
      = Some (VStr (lit "codex --quiet --json --model o4-mini --approval-mode full-auto hi")).
Proof.
  do 2 eexists. split; [vm_compute; reflexivity|]. repeat split; reflexivity.
Qed.

(** A missing executable: an error dictionary without exit code or output. *)
Example codex_agent_not_installed :
  ∃ d w',
    codex_agent missing_run sample_error_str (lit "hi") (lit "o4-mini")
      (lit "suggest") None None false (lit "general") None sample_world
    = (inr d, w')
    ∧ d !! "status" = Some (VStr (lit "error"))
    ∧ d !! "exit_code" = None
    ∧ d !! "output" = None
    ∧ run_calls w' = [[lit "codex"; lit "--quiet"; lit "--model";
                       lit "o4-mini"; lit "hi"]].
Proof.
  do 2 eexists. split; [vm_compute; reflexivity|]. repeat split; reflexivity.
Qed.

(** A malformed base64 payload makes the whole call raise, after the
    temporary file was created and before anything is run. *)
Example codex_agent_bad_image :
  ∃ w',
    codex_agent sample_run sample_error_str (lit "hi") (lit "o4-mini")
      (lit "suggest") (Some [lit "data:image/png;base64,Q"]) None false
      (lit "general") None sample_world
    = (inl BinasciiError, w')
    ∧ files w' !! lit "/tmp/tmpk3v9x2ab.png" = Some []
    ∧ run_calls w' = [].
Proof.
  eexists. split; [vm_compute; reflexivity|]. repeat split; reflexivity.
Qed.

(** ** Further properties *)

(** [resolve_image], case by case. *)
Lemma resolve_image_cases image_path w :
  resolve_image image_path w =
    if startswith image_path (lit "data:") then
      match first_unused (files w) (tmp_names w) with
      | None =>
          (inl FileExistsError,
           {| files := files w; tmp_names := []; run_calls := run_calls w;
              stderr_lines := stderr_lines w |})
      | Some (name, rest) =>
          match image_bytes image_path with
          | inr data => (inr name, with_file name data rest w)
          | inl e => (inl e, with_file name [] rest w)
          end
      end
    else (inr image_path, w).
Proof.
  unfold resolve_image, image_bytes.
  destruct (startswith image_path (lit "data:")); [|reflexivity].
  unfold_M. unfold NamedTemporaryFile.
  destruct (first_unused (files w) (tmp_names w)) as [[name rest]|]; [|done].
  destruct (contains (lit "base64,") image_path).
  - destruct (split_1 (lit ",") image_path) as [|h [|e [|??]]]; try done.
    destruct (b64decode e) as [err|data]; [done|].
    unfold write, with_file. cbn. by rewrite alter_insert_eq.
  - destruct (encode image_path) as [data|]; [|done].
    unfold write, with_file. cbn. by rewrite alter_insert_eq.
Qed.

Lemma keeps_refl w : keeps w w.
Proof. by repeat split. Qed.

Lemma keeps_trans w1 w2 w3 : keeps w1 w2 → keeps w2 w3 → keeps w1 w3.
Proof.
  intros (Hr1 & Hs1 & Hf1) (Hr2 & Hs2 & Hf2). repeat split.
  - by rewrite Hr2. 
  - by rewrite Hs2.
  - eauto.
Qed.

Lemma with_file_keeps name data rest w :
  files w !! name = None → keeps w (with_file name data rest w).
Proof.
  intros Hfresh. repeat split. intros path old Hold. cbn.
  rewrite lookup_insert_ne; [done|]. intros ->. by rewrite Hfresh in Hold.
Qed.

Lemma resolve_image_keeps image_path w :
  keeps w (resolve_image image_path w).2.
Proof.
  rewrite resolve_image_cases.
  destruct (startswith image_path (lit "data:")); [|apply keeps_refl].
  destruct (first_unused (files w) (tmp_names w)) as [[name rest]|] eqn:Hf;
    [|by repeat split].
  apply first_unused_fresh in Hf.
  destruct (image_bytes image_path); by apply with_file_keeps.
Qed.

Lemma resolve_all_keeps images : ∀ w, keeps w (resolve_all images w).2.
Proof.
  induction images as [|image_path rest IH]; intros w; [apply keeps_refl|].
  cbn [resolve_all]. unfold_M.
  pose proof (resolve_image_keeps image_path w) as H1.
  destruct (resolve_image image_path w) as [[e|path] w1]; [exact H1|].
  pose proof (IH w1) as H2.
  destruct (resolve_all rest w1) as [[e|paths] w2]; eapply keeps_trans; eauto.
Qed.

Lemma resolve_all_size images : ∀ w paths w',
  resolve_all images w = (inr paths, w') →
  size (files w') = (size (files w) + length (data_uris images))%nat.
Proof.
  induction images as [|image_path rest IH]; intros w paths w'.
  - cbn. unfold ret. intros [= _ <-]. lia.
  - cbn [resolve_all data_uris List.filter]. unfold_M.
    rewrite resolve_image_cases. fold (data_uris rest).
    destruct (startswith image_path (lit "data:")).
    + destruct (first_unused (files w) (tmp_names w)) as [[name rest']|] eqn:Hf;
        [|done].
      apply first_unused_fresh in Hf.
      destruct (image_bytes image_path) as [e|data]; [done|].
      destruct (resolve_all rest _) as [[e|ps] w2] eqn:Hrest; [done|].
      intros [= _ <-]. rewrite (IH _ _ _ Hrest). cbn.
      rewrite map_size_insert_None by done. lia.
    + destruct (resolve_all rest w) as [[e|ps] w2] eqn:Hrest; [done|].
      intros [= _ <-]. by rewrite (IH _ _ _ Hrest).
Qed.


Lemma partition_at_char_split c s : ∀ h t,
  partition_at [c] s = Some (h, t) → s = h ++ [c] ++ t ∧ c ∉ h.
Proof.
  induction s as [|d s IH]; intros h t; [done|].
  cbn. destruct (decide (c = d)) as [->|Hne].
  - intros [= <- <-]. split; [done|apply not_elem_of_nil].
  - destruct (partition_at [c] s) as [[h' t']|]; [|done].
    cbn. intros [= <- <-]. destruct (IH h' t' eq_refl) as [-> Hnot].
    split; [done|]. apply not_elem_of_cons. split; [congruence|done].
Qed.

Section Further.

Variable subprocess_run : list str → world → run_outcome.
Variable CalledProcessError_str : list str → Z → str.

Lemma execute_effects cmd w :
  ∃ (d : dict) w',
    execute subprocess_run CalledProcessError_str cmd w = (inr d, w')
    ∧ run_calls w' = run_calls w ++ [cmd]
    ∧ files w' = files w
    ∧ tmp_names w' = tmp_names w
    ∧ d !! "command" = Some (VStr (join (lit " ") cmd))
    ∧ result_shape d.
Proof.
  unfold execute, run, print_stderr. unfold_M.
  destruct (subprocess_run cmd _) as [[|p|p] out err|message];
    do 2 eexists; (split; [reflexivity|]); repeat (split; [reflexivity|]).
  - left. repeat split; eauto.
  - right. split; [reflexivity|]. split; [eauto|]. left. eexists.
    split; [reflexivity|]. split; [done|]. split; eauto.
  - right. split; [reflexivity|]. split; [eauto|]. left. eexists.
    split; [reflexivity|]. split; [done|]. split; eauto.
  - right. split; [reflexivity|]. split; [eauto|]. by right.
Qed.


(** X1. One call of [codex_agent] runs at most one process and never
    retries.  When it raises (an image could not be resolved) nothing was
    run.  When it returns for an empty prompt the world is untouched.
    Otherwise exactly one argument vector was run: it starts with "codex"
    and "--quiet", ends with the optimized prompt, which is not empty,
    and its joined form is the "command" of the dictionary. *)
Theorem codex_agent_runs_at_most_once prompt model approval_mode images
    provider json_output task_type additional_args w :
  match codex_agent subprocess_run CalledProcessError_str prompt model
          approval_mode images provider json_output task_type
          additional_args w with
  | (inl e, w') => run_calls w' = run_calls w
  | (inr d, w') =>
      (prompt = [] ∧ w' = w ∧ d !! "command" = None)
      ∨ (prompt ≠ []
         ∧ ∃ cmd,
             run_calls w' = run_calls w ++ [cmd]
             ∧ d !! "command" = Some (VStr (join (lit " ") cmd))
             ∧ take 2 cmd = [lit "codex"; lit "--quiet"]
             ∧ last cmd = Some (_optimize_prompt_for_task prompt task_type)
             ∧ _optimize_prompt_for_task prompt task_type ≠ [])
  end.
Proof.
  unfold codex_agent. destruct prompt as [|c prompt].
  - cbn. left. by repeat split.
  - cbn [truthy negb]. unfold run_codex. unfold_M.
    rewrite build_cmd_unfold. cbn [from_option id].
    pose proof (resolve_all_keeps (default [] images) w) as (Hruns & _ & _).
    destruct (resolve_all (default [] images) w) as [[e|paths] w1];
      [exact Hruns|].
    destruct (execute_effects
      (command_layout (_optimize_prompt_for_task (c :: prompt) task_type)
         (Some model) paths approval_mode true json_output provider
         (default [] additional_args)) w1)
      as (d & w' & -> & Hcalls & _ & _ & Hcmd & _).
    right. split; [done|]. eexists. cbn [snd] in Hruns.
    split; [by rewrite Hcalls, Hruns|]. split; [exact Hcmd|].
    split; [reflexivity|]. split.
    + unfold command_layout. by rewrite !app_assoc, last_snoc.
    + unfold _optimize_prompt_for_task. intros H.
      by apply app_nil in H as [_ ?].
Qed.


(** X3. Building the command runs nothing, prints nothing, and never
    removes or overwrites a file that exists, whether it succeeds or
    raises. *)
Theorem build_cmd_keeps_files prompt model images approval_mode quiet
    json_output provider additional_args w :
  let w' := (build_cmd prompt model images approval_mode quiet json_output
               provider additional_args w).2 in
  run_calls w' = run_calls w
  ∧ stderr_lines w' = stderr_lines w
  ∧ ∀ path data, files w !! path = Some data → files w' !! path = Some data.
Proof.
  cbv zeta. rewrite build_cmd_unfold.
  pose proof (resolve_all_keeps (default [] images) w) as Hkeeps.
  by destruct (resolve_all (default [] images) w) as [[e|paths] w1].
Qed.

(** X4. A command that was built left exactly one new file per data URI
    among the images: equal data URIs are not shared, and plain paths cost
    no file. *)
Theorem build_cmd_one_file_per_data_uri prompt model images approval_mode quiet
    json_output provider additional_args w cmd w' :
  build_cmd prompt model images approval_mode quiet json_output provider
    additional_args w = (inr cmd, w') →
  size (files w')
  = (size (files w) + length (data_uris (default [] images)))%nat.
Proof.
  rewrite build_cmd_unfold.
  destruct (resolve_all (default [] images) w) as [[e|paths] w1] eqn:Hres;
    [done|].
  intros [= _ <-]. eapply resolve_all_size, Hres.
Qed.

(** X5. A data URI with the [base64,] marker always splits at its first
    comma (the unpacking of [split(",", 1)] cannot fail), and what is
    decoded is all the text after that comma.  A payload that does not
    decode makes the call raise and leaves the new file behind, empty. *)
Theorem data_uri_base64_payload image_path w :
  startswith image_path (lit "data:") = true →
  contains (lit "base64,") image_path = true →
  ∃ header encoded,
    image_path = header ++ lit "," ++ encoded
    ∧ (44 ∉ header)
    ∧ match first_unused (files w) (tmp_names w) with
      | None =>
          ∃ w', resolve_image image_path w = (inl FileExistsError, w')
                ∧ files w' = files w
      | Some (name, rest) =>
          files w !! name = None
          ∧ match b64decode encoded with
            | inr data =>
                resolve_image image_path w
                = (inr name, with_file name data rest w)
            | inl e =>
                resolve_image image_path w
                = (inl e, with_file name [] rest w)
            end
      end.
Proof.
  intros Hdata Hb64.
  destruct (partition_at_char 44 image_path) as [[header encoded] Hp].
  { eapply contains_elem; [exact Hb64|].
    apply list_elem_of_lookup. by exists 6%nat. }
  destruct (partition_at_char_split _ _ _ _ Hp) as [Heq Hnot].
  exists header, encoded. split; [exact Heq|]. split; [exact Hnot|].
  rewrite resolve_image_cases, Hdata. unfold image_bytes, split_1.
  rewrite Hb64. change (lit ",") with [44]. rewrite Hp.
  destruct (first_unused (files w) (tmp_names w)) as [[name rest]|] eqn:Hf.
  - split; [eapply first_unused_fresh, Hf|]. by destruct (b64decode encoded).
  - by eexists.
Qed.

(** X6. For a fixed task type, [_optimize_prompt_for_task] maps distinct
    prompts to distinct texts, never makes a non-empty prompt empty, and
    lengthens every prompt by the same amount. *)
Theorem optimize_prompt_injective prompt1 prompt2 task_type :
  (_optimize_prompt_for_task prompt1 task_type
   = _optimize_prompt_for_task prompt2 task_type → prompt1 = prompt2)
  ∧ (prompt1 ≠ [] → _optimize_prompt_for_task prompt1 task_type ≠ [])
  ∧ length (_optimize_prompt_for_task prompt1 task_type)
    = (length (_optimize_prompt_for_task [] task_type) + length prompt1)%nat.
Proof.
  unfold _optimize_prompt_for_task. split; [|split].
  - apply app_inv_head.
  - intros Hne H. by apply app_nil in H as [_ ?].
  - rewrite app_nil_r. apply length_app.
Qed.

(** X7. Every documented task type other than "general" puts one
    instruction sentence, free of line breaks, then a colon and an empty
    line before the prompt. *)
Theorem task_prefix_sentences prompt task_type :
  task_type ∈ task_types → task_type ≠ lit "general" →
  ∃ sentence : str,
    _optimize_prompt_for_task prompt task_type
    = sentence ++ lit ":" ++ [10; 10] ++ prompt
    ∧ sentence ≠ []
    ∧ 10 ∉ sentence.
Proof.
  intros Hin Hne. unfold task_types in Hin.
  repeat (apply elem_of_cons in Hin as [->|Hin]); try done;
    try by apply elem_of_nil in Hin.
  all: unfold _optimize_prompt_for_task;
    match goal with
    | |- context [task_prefixes !! ?t] =>
        let p := eval vm_compute in (task_prefixes !! t) in
        change (task_prefixes !! t) with p
    end; cbn [default from_option id];
    match goal with
    | |- ∃ _, ?l ++ _ = _ ∧ _ =>
        exists (take (length l - 3) l)
    end; (split; [reflexivity|]); split; [by vm_compute|];
    apply (bool_decide_unpack _); by vm_compute.
Qed.


(** X9. An empty model, an empty list of images, an empty provider and an
    empty list of additional arguments each build the same command as
    [None] does. *)
Theorem absent_and_empty_options_agree prompt model images approval_mode quiet
    json_output provider additional_args w :
  build_cmd prompt (Some []) images approval_mode quiet json_output provider
      additional_args w
    = build_cmd prompt None images approval_mode quiet json_output provider
        additional_args w
  ∧ build_cmd prompt model (Some []) approval_mode quiet json_output provider
        additional_args w
    = build_cmd prompt model None approval_mode quiet json_output provider
        additional_args w
  ∧ build_cmd prompt model images approval_mode quiet json_output (Some [])
        additional_args w
    = build_cmd prompt model images approval_mode quiet json_output None
        additional_args w
  ∧ build_cmd prompt model images approval_mode quiet json_output provider
        (Some []) w
    = build_cmd prompt model images approval_mode quiet json_output provider
        None w.
Proof. by rewrite !build_cmd_unfold. Qed.

(** X10. Every dictionary [codex_agent] returns has status "success" or
    "error"; a success has no "error" and no "exit_code" but an "output"
    and a "stderr"; an error has an "error", and either a non-zero
    "exit_code" with "output" and "stderr", or none of the three. *)
Theorem codex_agent_result_shape prompt model approval_mode images provider
    json_output task_type additional_args w d w' :
  codex_agent subprocess_run CalledProcessError_str prompt model approval_mode
    images provider json_output task_type additional_args w = (inr d, w') →
  result_shape d.
Proof.
  unfold codex_agent. destruct (negb (truthy prompt)).
  - intros [= <- _]. right. split; [reflexivity|]. split; [eauto|]. by right.
  - unfold run_codex. unfold_M.
    destruct (build_cmd _ _ _ _ _ _ _ _ w) as [[e|cmd] w1]; [done|].
    destruct (execute_effects cmd w1) as (d0 & w0 & -> & _ & _ & _ & _ & Hs).
    by intros [= <- _].
Qed.

(** X11. [main] makes one call of [subprocess.run], for [which codex],
    and writes no file.  It ends in [sys.exit(1)], without starting the
    server, whenever that call does not exit with code 0, and whenever the
    mode is neither "stdio" nor "sse". *)
Theorem main_serves_only_with_codex args w :
  ∃ r w',
    main subprocess_run args w = (inr r, w')
    ∧ run_calls w' = run_calls w ++ [[lit "which"; lit "codex"]]
    ∧ files w' = files w
    ∧ ((∀ out err,
          subprocess_run [lit "which"; lit "codex"] w ≠ Exited 0 out err) →
       r = SystemExit 1)
    ∧ (mode args ≠ lit "stdio" → mode args ≠ lit "sse" → r = SystemExit 1).
Proof.
  unfold main, run. unfold_M.
  destruct (subprocess_run [lit "which"; lit "codex"] w)
    as [[|p|p] out err|message].
  - cbn [bool_decide]. rewrite bool_decide_eq_false_2 by (intros H; by apply H).
    unfold serve. repeat case_bool_decide; unfold print_stderr; unfold_M;
      do 2 eexists; (split; [reflexivity|]); (split; [reflexivity|]);
      (split; [reflexivity|]);
      (split; [intros Hno; exfalso; by apply (Hno out err)|]);
      intros Hstdio Hsse; done.
  - do 2 eexists. rewrite bool_decide_eq_true_2 by done.
    split; [reflexivity|]. by repeat split.
  - do 2 eexists. rewrite bool_decide_eq_true_2 by done.
    split; [reflexivity|]. by repeat split.
  - do 2 eexists. split; [reflexivity|]. by repeat split.
Qed.

(** [main] once the call for [which codex] returned with code 0: the
    mode "stdio" starts the server with no arguments after three lines on
    standard error, the mode "sse" starts it on the "sse" transport with
    the host and port of the command line. *)
Theorem main_transport args w out err :
  subprocess_run [lit "which"; lit "codex"] w = Exited 0 out err →
  (mode args = lit "stdio" →
   ∃ w', main subprocess_run args w = (inr (McpRun None None None), w')
         ∧ length (stderr_lines w') = (length (stderr_lines w) + 3)%nat)
  ∧ (mode args = lit "sse" →
     ∃ w', main subprocess_run args w
           = (inr (McpRun (Some (lit "sse")) (Some (host args))
                     (Some (port args))), w')
           ∧ stderr_lines w' !! S (length (stderr_lines w))
             = Some (lit "Server will run on http://" ++ host args
                     ++ lit ":" ++ lit (pretty (port args)))).
Proof.
  intros Hwhich. unfold main, run. unfold_M. rewrite Hwhich.
  rewrite bool_decide_eq_false_2 by (intros H; by apply H). unfold serve.
  split; intros Hmode; rewrite Hmode.
  - eexists. split; [reflexivity|]. cbn [stderr_lines].
    rewrite !length_app. cbn [length]. unfold str. lia.
  - rewrite bool_decide_eq_false_2 by lit_neq.
    rewrite bool_decide_eq_true_2 by done.
    eexists. split; [reflexivity|]. cbn [stderr_lines].
    rewrite <- !app_assoc. cbn [app].
    unfold str. rewrite lookup_app_r; [|lia].
    match goal with
    | |- context [(S ?n - ?m)%nat] =>
        replace (S n - m)%nat with 1%nat by (unfold str; lia)
    end.
    reflexivity.
Qed.

End Further.


Lemma build_cmd_one_file_per_data_uri_witness :
  size (files (with_file (lit "/tmp/tmpk3v9x2ab.png") [x41; x42; x43]
                 [lit "/tmp/tmpq7w1z8cd.png"] sample_world))
  = (size (files sample_world)
     + length (data_uris
                 (default [] (Some [lit "data:image/png;base64,QUJD";
                                    lit "design.png"]))))%nat.
Proof.
  apply (build_cmd_one_file_per_data_uri (lit "describe")
           (Some (lit "o4-mini"))
           (Some [lit "data:image/png;base64,QUJD"; lit "design.png"])
           (lit "suggest") true false None None sample_world
           [lit "codex"; lit "--quiet"; lit "--model"; lit "o4-mini";
            lit "--image"; lit "/tmp/tmpk3v9x2ab.png";
            lit "--image"; lit "design.png"; lit "describe"]).
  reflexivity.
Defined.

Lemma data_uri_base64_payload_witness :
  ∃ header encoded,
    lit "data:image/png;base64,QUJD" = header ++ lit "," ++ encoded
    ∧ (44 ∉ header)
    ∧ match first_unused (files sample_world) (tmp_names sample_world) with
      | None =>
          ∃ w', resolve_image (lit "data:image/png;base64,QUJD") sample_world
                = (inl FileExistsError, w')
                ∧ files w' = files sample_world
      | Some (name, rest) =>
          files sample_world !! name = None
          ∧ match b64decode encoded with
            | inr data =>
                resolve_image (lit "data:image/png;base64,QUJD") sample_world
                = (inr name, with_file name data rest sample_world)
            | inl e =>
                resolve_image (lit "data:image/png;base64,QUJD") sample_world
                = (inl e, with_file name [] rest sample_world)
            end
      end.
Proof.
  apply (data_uri_base64_payload (lit "data:image/png;base64,QUJD")
           sample_world); reflexivity.
Defined.

Lemma task_prefix_sentences_witness :
  ∃ sentence : str,
    _optimize_prompt_for_task (lit "add cases") (lit "testing")
    = sentence ++ lit ":" ++ [10; 10] ++ lit "add cases"
    ∧ sentence ≠ []
    ∧ 10 ∉ sentence.
Proof.
  apply (task_prefix_sentences (lit "add cases") (lit "testing")).
  - apply list_elem_of_lookup. by exists 5%nat.
  - intros H. vm_compute in H. discriminate H.
Defined.

Lemma codex_agent_result_shape_witness :
  result_shape
    {[ "status" := VStr (lit "success");
       "output" := VStr (lit "ok");
       "stderr" := VStr (lit "");
       "command" := VStr (lit "codex --quiet --model o4-mini hi") ]}.
Proof.
  exact (codex_agent_result_shape sample_run sample_error_str (lit "hi")
           (lit "o4-mini") (lit "suggest") None None false (lit "general")
           None sample_world _ _ codex_agent_success).
Defined.

Lemma main_transport_witness :
  ∃ w',
    main sample_run sample_args sample_world
    = (inr (McpRun None None None), w')
    ∧ length (stderr_lines w') = (length (stderr_lines sample_world) + 3)%nat.
Proof.
  apply (proj1 (main_transport sample_run sample_args sample_world
                  (lit "ok" ++ [10]) (lit "") eq_refl)).
  reflexivity.
Defined.

(** ** The child's exit code, and output that is no text *)

Section ChildProcess.

Variable child : list str → world → child_outcome.
Variable decode : bytes → option str.
Variable UnicodeDecodeError_str : bytes → str.
Variable CalledProcessError_str : list str → Z → str.

(** C2, in the form that holds of the code.  [execute] makes one call of
    [subprocess.run] in text mode and always returns a dictionary.  Its
    status is "success" exactly when the child exited with code 0 and what
    it wrote to both streams decodes as text; then it holds the stripped
    standard output, the standard error as decoded and the joined
    command.  A child that exits with another code [n], its output
    decoding, gives an "error" dictionary with exit code [n], the captured
    output and error and the joined command.  When the child cannot be
    started, and also when it exited, with whatever code, but its output
    does not decode, the dictionary holds the exception's text and the
    command, and no "exit_code", "output" or "stderr" entry. *)
Theorem execute_child_outcomes cmd w :
  let subprocess_run :=
    fun cmd w => text_mode decode UnicodeDecodeError_str (child cmd w) in
  let at_call :=
    (print_stderr (lit "Executing command: " ++ join (lit " ") cmd) w).2 in
  let unexpected message (d : dict) :=
    d = {[ "status" := VStr (lit "error");
           "error" := VStr message;
           "command" := VStr (join (lit " ") cmd) ]}
    ∧ d !! "exit_code" = None
    ∧ d !! "output" = None
    ∧ d !! "stderr" = None in
  ∃ (d : dict) w',
    execute subprocess_run CalledProcessError_str cmd w = (inr d, w')
    ∧ run_calls w' = run_calls w ++ [cmd]
    ∧ (d !! "status" = Some (VStr (lit "success"))
       ↔ ∃ raw_out raw_err out err,
           child cmd at_call = ChildExited 0 raw_out raw_err
           ∧ decode raw_out = Some out
           ∧ decode raw_err = Some err)
    ∧ match child cmd at_call with
      | ChildExited n raw_out raw_err =>
          match decode raw_out, decode raw_err with
          | Some out, Some err =>
              if decide (n = 0%Z) then
                d = {[ "status" := VStr (lit "success");
                       "output" := VStr (strip out);
                       "stderr" := VStr err;
                       "command" := VStr (join (lit " ") cmd) ]}
              else
                d = {[ "status" := VStr (lit "error");
                       "error" := VStr (CalledProcessError_str cmd n);
                       "output" := VStr out;
                       "stderr" := VStr err;
                       "exit_code" := VInt n;
                       "command" := VStr (join (lit " ") cmd) ]}
                ∧ d !! "exit_code" = Some (VInt n)
          | None, _ => unexpected (UnicodeDecodeError_str raw_out) d
          | Some _, None => unexpected (UnicodeDecodeError_str raw_err) d
          end
      | NotStarted message => unexpected message d
      end.
Proof.
  intros subprocess_run at_call unexpected.
  destruct (execute_outcomes subprocess_run CalledProcessError_str cmd w)
    as (d & w' & Hexec & Hcalls & Hstatus & Hcases).
  fold at_call in Hstatus, Hcases.
  exists d, w'. split; [exact Hexec|]. split; [exact Hcalls|].
  subst subprocess_run. cbv beta in Hstatus, Hcases. unfold text_mode in *.
  destruct (child cmd at_call) as [n raw_out raw_err|message].
  - destruct (decode raw_out) as [out|] eqn:Hout.
    + destruct (decode raw_err) as [err|] eqn:Herr.
      * split; [|exact Hcases]. rewrite Hstatus. split.
        -- intros (o & e & Heq). injection Heq as Hn _ _. subst n.
           by exists raw_out, raw_err, out, err.
        -- intros (ro & re & o & e & Heq & Ho & He).
           injection Heq as Hn Hro Hre. subst n ro re.
           by exists out, err.
      * split; [|exact Hcases]. rewrite Hstatus. split.
        -- by intros (o & e & ?).
        -- intros (ro & re & o & e & Heq & Ho & He).
           injection Heq as Hn Hro Hre. subst ro re. congruence.
    + split; [|exact Hcases]. rewrite Hstatus. split.
      * by intros (o & e & ?).
      * intros (ro & re & o & e & Heq & Ho & He).
        injection Heq as Hn Hro Hre. subst ro re. congruence.
  - split; [|exact Hcases]. rewrite Hstatus. split.
    + by intros (o & e & ?).
    + by intros (ro & re & o & e & ? & _).
Qed.

(** X12. When [which codex] exits with code 0 and what it printed decodes
    as text, the mode "stdio" starts the server with no arguments after
    three lines on standard error, and the mode "sse" starts it on the
    "sse" transport with the host and port of the command line, the second
    line printed giving that address. *)
Theorem main_transport_when_found args w raw_out raw_err out err :
  child [lit "which"; lit "codex"] w = ChildExited 0 raw_out raw_err →
  decode raw_out = Some out →
  decode raw_err = Some err →
  let subprocess_run :=
    fun cmd w => text_mode decode UnicodeDecodeError_str (child cmd w) in
  (mode args = lit "stdio" →
   ∃ w', main subprocess_run args w = (inr (McpRun None None None), w')
         ∧ length (stderr_lines w') = (length (stderr_lines w) + 3)%nat)
  ∧ (mode args = lit "sse" →
     ∃ w', main subprocess_run args w
           = (inr (McpRun (Some (lit "sse")) (Some (host args))
                     (Some (port args))), w')
           ∧ stderr_lines w' !! S (length (stderr_lines w))
             = Some (lit "Server will run on http://" ++ host args
                     ++ lit ":" ++ lit (pretty (port args)))).
Proof.
  intros Hchild Hout Herr subprocess_run.
  apply (main_transport subprocess_run args w out err).
  subst subprocess_run. cbv beta. unfold text_mode.
  by rewrite Hchild, Hout, Herr.
Qed.

End ChildProcess.

Lemma execute_child_counterexample :
  decode_text [xff] = None
  ∧ (∃ (d : dict) w',
       execute
         (fun cmd w =>
            text_mode decode_text sample_decode_error_str
              (garbled_child 0 cmd w))
         sample_error_str [lit "codex"; lit "--quiet"; lit "hi"] sample_world
       = (inr d, w')
       ∧ garbled_child 0 [lit "codex"; lit "--quiet"; lit "hi"] sample_world
         = ChildExited 0 [xff] []
       ∧ d !! "status" = Some (VStr (lit "error"))
       ∧ d !! "status" ≠ Some (VStr (lit "success")))
  ∧ (∃ (d : dict) w',
       execute
         (fun cmd w =>
            text_mode decode_text sample_decode_error_str
              (garbled_child 3 cmd w))
         sample_error_str [lit "codex"; lit "--quiet"; lit "hi"] sample_world
       = (inr d, w')
       ∧ garbled_child 3 [lit "codex"; lit "--quiet"; lit "hi"] sample_world
         = ChildExited 3 [xff] []
       ∧ d !! "exit_code" = None
       ∧ d !! "exit_code" ≠ Some (VInt 3)).
Proof.
  split; [reflexivity|]. split.
  - do 2 eexists. split; [vm_compute; reflexivity|].
    split; [reflexivity|]. split; [reflexivity|].
    intros H. vm_compute in H. discriminate H.
  - do 2 eexists. split; [vm_compute; reflexivity|].
    split; [reflexivity|]. split; [reflexivity|].
    intros H. vm_compute in H. discriminate H.
Qed.

Lemma main_transport_when_found_witness :
  ∃ w',
    main (fun cmd w =>
            text_mode decode_text sample_decode_error_str (found_child cmd w))
      sample_args sample_world
    = (inr (McpRun None None None), w')
    ∧ length (stderr_lines w') = (length (stderr_lines sample_world) + 3)%nat.
Proof.
  apply (proj1 (main_transport_when_found found_child decode_text
                  sample_decode_error_str sample_args sample_world
                  _ _ _ _ eq_refl eq_refl eq_refl)).
  reflexivity.
Defined.

Example decode_utf8_text :
  decode_utf8 [xe2; x82; xac; x41; xc3; xa9] = Some [8364; 65; 233].
Proof. reflexivity. Qed.

Example decode_utf8_overlong : decode_utf8 [xc0; x80] = None.
Proof. reflexivity. Qed.

Example decode_text_newlines :
  decode_text [x61; x0d; x0a; x62; x0d; x63] = Some [97; 10; 98; 10; 99].
Proof. reflexivity. Qed.
